(** * The secant solver of [lab-2/lab-2-hands-on/secant.ipynb]

    A shallow embedding of the notebook's [secant] function and the
    properties of its update loop: the step formula, the stopping rule,
    the precondition, the sign test that selects the next pair, the
    iteration bound, the history trace and the bracketing invariant.

    The function is written once over an interface of Python numbers and
    run at two instances: IEEE binary64 (what a Python [float] is) and
    exact rationals.  Everything that the Python code does besides
    computing - evaluating [func], printing, raising - is threaded through
    a small monad. *)

From Stdlib Require Import ZArith QArith Qabs List Sorted String Bool Lia Lqa DecimalString.
From Stdlib Require Import PrimFloat.
Import ListNotations.
Open Scope string_scope.
Open Scope list_scope.

Set Implicit Arguments.

(** ** Python numbers *)

(** The operations [secant] applies to the values of [interval],
    [tolerance] and [func]: [+], binary and unary [-], [*], [/], [abs],
    [<] and the literal [0].  [is_zero] is the test the true division makes
    on its divisor before dividing. *)
Class Number (R : Type) : Type := {
  zero : R;
  add : R -> R -> R;
  sub : R -> R -> R;
  mul : R -> R -> R;
  div : R -> R -> R;
  neg : R -> R;
  abs : R -> R;
  lt : R -> R -> bool;
  is_zero : R -> bool
}.

(** Python [float]: IEEE 754 binary64. *)
#[export] Instance Number_float : Number float := {
  zero := PrimFloat.zero;
  add := PrimFloat.add;
  sub := PrimFloat.sub;
  mul := PrimFloat.mul;
  div := PrimFloat.div;
  neg := PrimFloat.opp;
  abs := PrimFloat.abs;
  lt := PrimFloat.ltb;
  is_zero := fun y => PrimFloat.eqb y PrimFloat.zero
}.

(** Exact rational arithmetic (Python's [fractions.Fraction]). *)
Definition Qlt_bool (x y : Q) : bool := negb (Qle_bool y x).

#[export] Instance Number_Q : Number Q := {
  zero := 0%Q;
  add := Qplus;
  sub := Qminus;
  mul := Qmult;
  div := Qdiv;
  neg := Qopp;
  abs := Qabs;
  lt := Qlt_bool;
  is_zero := fun y => Qeq_bool y 0
}.

(** ** Exceptions, output and the effect monad *)

Inductive exn : Type :=
| AssertionError (msg : string)
| ZeroDivisionError.

(** The outcome of a computation: a value, a raised exception, or the
    model's recursion budget used up before the loop left. *)
Inductive outcome (A : Type) : Type :=
| Ok (x : A)
| Raised (e : exn)
| OutOfFuel.

Arguments Raised {A} e.
Arguments OutOfFuel {A}.

(** What a call of [secant] does to the world, besides returning:
    [evals] counts the calls of [func], [stdout] holds the printed lines,
    and [heads] logs the pair [(a_next, b_next)] each time the body of the
    [while] loop is entered (so [length heads] is the number of iterations
    performed). *)
Record World (R : Type) : Type := mkWorld {
  evals : nat;
  heads : list (R * R);
  stdout : list string
}.

Definition start (R : Type) : World R :=
  {| evals := 0; heads := []; stdout := [] |}.

Definition iterations {R : Type} (w : World R) : nat := List.length (heads w).

Definition M (R A : Type) : Type := World R -> outcome A * World R.

Definition ret {R A : Type} (x : A) : M R A := fun w => (Ok x, w).

Definition bind {R A B : Type} (m : M R A) (k : A -> M R B) : M R B :=
  fun w =>
    match m w with
    | (Ok x, w') => k x w'
    | (Raised e, w') => (Raised e, w')
    | (OutOfFuel, w') => (OutOfFuel, w')
    end.

Definition raise {R A : Type} (e : exn) : M R A := fun w => (Raised e, w).

Definition out_of_fuel {R A : Type} : M R A := fun w => (OutOfFuel, w).

Declare Scope py_scope.
Delimit Scope py_scope with py.
Notation "x <- m ;; k" := (bind m (fun x => k))
  (at level 61, m at next level, right associativity) : py_scope.
Notation "m ;; k" := (bind m (fun _ => k))
  (at level 61, right associativity) : py_scope.
Open Scope py_scope.

(** [print(...)]: one more line on standard output. *)
Definition print {R : Type} (line : string) : M R unit :=
  fun w => (Ok tt, {| evals := evals w; heads := heads w;
                      stdout := stdout w ++ [line] |}).

(** [assert test, msg] *)
Definition py_assert {R : Type} (test : bool) (msg : string) : M R unit :=
  if test then ret tt else raise (AssertionError msg).

(** [x / y]: Python's true division raises when the divisor is zero. *)
Definition truediv {R : Type} `{Number R} (x y : R) : M R R :=
  if is_zero y then raise ZeroDivisionError else ret (div x y).

(** Entering the body of the loop. *)
Definition enter {R : Type} (a b : R) : M R unit :=
  fun w => (Ok tt, {| evals := evals w; heads := heads w ++ [(a, b)];
                      stdout := stdout w |}).

(** [str(n)] for an [int]. *)
Definition str (n : Z) : string := NilZero.string_of_int (Z.to_int n).

(** The two lines [secant] prints. *)
Definition found_message (num_iterations : Z) : string :=
  ("Found solution after " ++ str num_iterations ++ " iterations.")%string.

Definition exhausted_message : string :=
  "Terminate since reached the maximum iterations.".

Definition assert_message : string :=
  "This initial interval does not satisfied the prerequisites!".

(** ** The solver *)

(** [history = {'estimation': [], 'x_error': [], 'y_error': []}] *)
Record History (R : Type) : Type := mkHistory {
  estimation : list R;
  x_error : list R;
  y_error : list R
}.

Definition empty_history (R : Type) : History R :=
  {| estimation := []; x_error := []; y_error := [] |}.

(** The three [append]s of one iteration. *)
Definition record {R : Type} (h : History R) (c xe ye : R) : History R :=
  {| estimation := estimation h ++ [c];
     x_error := x_error h ++ [xe];
     y_error := y_error h ++ [ye] |}.

(** What [secant] returns: [c], or [(c, history)]. *)
Inductive Result (R : Type) : Type :=
| Solution (c : R)
| SolutionHistory (c : R) (h : History R).

Definition solution {R : Type} (r : Result R) : R :=
  match r with
  | Solution c => c
  | SolutionHistory c _ => c
  end.

Definition history_of {R : Type} (r : Result R) : option (History R) :=
  match r with
  | Solution _ => None
  | SolutionHistory _ h => Some h
  end.

(** The variables that live across iterations.  [history] is bound only
    when [report_history] is set; otherwise the field stays empty and is
    never read. *)
Record Locals (R : Type) : Type := mkLocals {
  num_iterations : Z;
  a_next : R;
  b_next : R;
  history : History R
}.

(** One pass through the loop body either goes round again or returns. *)
Inductive Flow (R : Type) : Type :=
| Continue (l : Locals R)
| Return (r : Result R).

Section Solver.

Context {R : Type} `{Number R}.
Variable func : R -> R.

(** [func(x)] *)
Definition call (x : R) : M R R :=
  fun w => (Ok (func x), {| evals := S (evals w); heads := heads w;
                            stdout := stdout w |}).

Section Loop.

Variable max_iterations : Z.
Variable tolerance : R.
Variable report_history : bool.

(** [return (c, history) if report_history else c] *)
Definition result (c : R) (h : History R) : Result R :=
  if report_history then SolutionHistory c h else Solution c.

(** The body of [while True:]. *)
Definition loop_body (l : Locals R) : M R (Flow R) :=
  enter (a_next l) (b_next l) ;;
  (* Find the next point *)
  fa <- call (a_next l) ;;
  fb <- call (b_next l) ;;
  fa' <- call (a_next l) ;;
  d_x <- truediv (mul (neg fa) (sub (b_next l) (a_next l))) (sub fb fa') ;;
  let c := add (a_next l) d_x in
  (* Evaluate the error *)
  let x_err := abs d_x in
  fc <- call c ;;
  let y_err := abs fc in
  let h := if report_history then record (history l) c x_err y_err
           else history l in
  (* Satisfy the criterion and stop *)
  if lt x_err tolerance || lt y_err tolerance then
    print (found_message (num_iterations l)) ;;
    ret (Return (result c h))
  (* Check the number of iterations *)
  else if (num_iterations l <? max_iterations)%Z then
    let n := (num_iterations l + 1)%Z in
    (* Find the next interval *)
    value_of_func_c <- call c ;;
    fa <- call (a_next l) ;;
    if lt (mul fa value_of_func_c) zero then
      ret (Continue {| num_iterations := n; a_next := a_next l;
                       b_next := c; history := h |})
    else
      fb <- call (b_next l) ;;
      if lt (mul value_of_func_c fb) zero then
        ret (Continue {| num_iterations := n; a_next := c;
                         b_next := b_next l; history := h |})
      else
        ret (Return (result c h))
  else
    print exhausted_message ;;
    ret (Return (result c h)).

(** [while True:] with a budget of passes. *)
Fixpoint while_true (fuel : nat) (l : Locals R) : M R (Result R) :=
  match fuel with
  | O => out_of_fuel
  | S fuel' =>
      flow <- loop_body l ;;
      match flow with
      | Continue l' => while_true fuel' l'
      | Return r => ret r
      end
  end.

(** [secant], up to the budget of the loop. *)
Definition secant_fuel (fuel : nat) (interval : R * R) : M R (Result R) :=
  let '(a, b) := interval in
  (* Ensure the initial interval is valid *)
  fa <- call a ;;
  fb <- call b ;;
  py_assert (lt (mul fa fb) zero) assert_message ;;
  (* Set the initial condition *)
  while_true fuel {| num_iterations := 0; a_next := a; b_next := b;
                     history := empty_history R |}.

End Loop.

(** [secant(func, interval, max_iterations, tolerance, report_history)].
    [max_iterations + 1] passes are enough for the loop to leave
    ([secant_fuel_enough] below), so this is the function itself:
    the budget never shows in its outcome. *)
Definition secant (interval : R * R) (max_iterations : Z) (tolerance : R)
           (report_history : bool) : M R (Result R) :=
  secant_fuel max_iterations tolerance report_history
              (S (Z.to_nat max_iterations)) interval.

End Solver.

(** ** The notebook's example *)

(** [f(x) = x**2 - x - 1] on rationals, where [x**2] is the exact
    square. *)
Definition f_Q (x : Q) : Q := (x * x - x - 1)%Q.

(** The same polynomial on floats with the square written as a product,
    [lambda x: x*x - x - 1].  (The notebook's [x**2] on a float goes through
    the C library's [pow], which is not modelled.) *)
Definition poly_float (x : float) : float := (x * x - x - 1)%float.

(** A cubic, [g(x) = -x**3 - x**2 + x + 1], negative at [3] and positive at
    [-4]. *)
Definition g_Q (x : Q) : Q := (- (x * x * x) - x * x + x + 1)%Q.

Definition g_float (x : float) : float :=
  (- (x * x * x) - x * x + x + 1)%float.

(** [xs[-1] <= e] for every [e] of [xs]: the last entry is the smallest. *)
Definition final_is_smallest (xs : list Q) : bool :=
  forallb (fun e => Qle_bool (last xs 0%Q) e) xs.

(** ** What one iteration computes, as the formulas read *)

Section Formulas.

Context {R : Type} `{Number R}.
Variable func : R -> R.

(** The secant denominator [f(b) - f(a)]. *)
Definition denominator (a b : R) : R := sub (func b) (func a).

(** [dx = -f(a) * (b - a) / (f(b) - f(a))] *)
Definition secant_dx (a b : R) : R :=
  div (mul (neg (func a)) (sub b a)) (sub (func b) (func a)).

(** [c = a + dx] *)
Definition secant_c (a b : R) : R := add a (secant_dx a b).

(** [x_error = |dx|] and [y_error = |f(c)|] *)
Definition secant_x_error (a b : R) : R := abs (secant_dx a b).

Definition secant_y_error (a b : R) : R := abs (func (secant_c a b)).

(** The stopping rule, [x_error < tolerance or y_error < tolerance]. *)
Definition stop (tolerance : R) (a b : R) : bool :=
  lt (secant_x_error a b) tolerance || lt (secant_y_error a b) tolerance.

(** The sign test of the pair [(a, b)]: [f(a) * f(b) < 0]. *)
Definition sign_change (a b : R) : bool := lt (mul (func a) (func b)) zero.

(** The history after an iteration at the pair [(a, b)]. *)
Definition recorded (report_history : bool) (h : History R) (a b : R)
  : History R :=
  if report_history
  then record h (secant_c a b) (secant_x_error a b) (secant_y_error a b)
  else h.

(** The world after an iteration at [(a, b)] that evaluated [func] [n]
    times and printed [out]. *)
Definition after (w : World R) (n : nat) (a b : R) (out : list string)
  : World R :=
  {| evals := n + evals w; heads := heads w ++ [(a, b)];
     stdout := stdout w ++ out |}.

(** The history that the formulas give for the pairs [ps], one entry per
    pair. *)
Definition trace (ps : list (R * R)) : History R :=
  {| estimation := map (fun p => secant_c (fst p) (snd p)) ps;
     x_error := map (fun p => secant_x_error (fst p) (snd p)) ps;
     y_error := map (fun p => secant_y_error (fst p) (snd p)) ps |}.

(** The world after the two evaluations of the precondition check. *)
Definition checked (w : World R) : World R :=
  {| evals := 2 + evals w; heads := heads w; stdout := stdout w |}.

(** The locals when the loop is entered for the first time. *)
Definition initial (a b : R) : Locals R :=
  {| num_iterations := 0; a_next := a; b_next := b;
     history := empty_history R |}.

End Formulas.

(** ** Around the solver *)

(** A result with its history left out: what the caller sees of a call
    without [report_history]. *)
Definition without_history {R : Type} (r : Result R) : Result R :=
  Solution (solution r).

Definition outcome_map {A B : Type} (g : A -> B) (o : outcome A) : outcome B :=
  match o with
  | Ok x => Ok (g x)
  | Raised e => Raised e
  | OutOfFuel => OutOfFuel
  end.

(** A pair of points nested in another and strictly narrower. *)
Definition narrower (p q : Q * Q) : Prop :=
  (fst p <= fst q /\ snd q <= snd p /\ snd q - fst q < snd p - fst p)%Q.

(** A function handle with its root at [0]: [lambda x: x]. *)
Definition line_Q (x : Q) : Q := x.

(** *** Operands whose division does not raise *)


(** *** Function handles with memory *)

(** A Python callable need not be a function of its argument alone.
    [func n x] is what the handle returns for [x] when it has been called
    [n] times before.  The definitions below are [secant] again, line by
    line, for such a handle. *)
Section Handle.

Context {R : Type} `{Number R}.
Variable func : nat -> R -> R.

(** [func(x)], the call number [evals] of the handle. *)
Definition call_st (x : R) : M R R :=
  fun w => (Ok (func (evals w) x),
            {| evals := S (evals w); heads := heads w; stdout := stdout w |}).

Section LoopSt.

Variable max_iterations : Z.
Variable tolerance : R.
Variable report_history : bool.

Definition loop_body_st (l : Locals R) : M R (Flow R) :=
  enter (a_next l) (b_next l) ;;
  (* Find the next point *)
  fa <- call_st (a_next l) ;;
  fb <- call_st (b_next l) ;;
  fa' <- call_st (a_next l) ;;
  d_x <- truediv (mul (neg fa) (sub (b_next l) (a_next l))) (sub fb fa') ;;
  let c := add (a_next l) d_x in
  (* Evaluate the error *)
  let x_err := abs d_x in
  fc <- call_st c ;;
  let y_err := abs fc in
  let h := if report_history then record (history l) c x_err y_err
           else history l in
  (* Satisfy the criterion and stop *)
  if lt x_err tolerance || lt y_err tolerance then
    print (found_message (num_iterations l)) ;;
    ret (Return (result report_history c h))
  (* Check the number of iterations *)
  else if (num_iterations l <? max_iterations)%Z then
    let n := (num_iterations l + 1)%Z in
    (* Find the next interval *)
    value_of_func_c <- call_st c ;;
    fa <- call_st (a_next l) ;;
    if lt (mul fa value_of_func_c) zero then
      ret (Continue {| num_iterations := n; a_next := a_next l;
                       b_next := c; history := h |})
    else
      fb <- call_st (b_next l) ;;
      if lt (mul value_of_func_c fb) zero then
        ret (Continue {| num_iterations := n; a_next := c;
                         b_next := b_next l; history := h |})
      else
        ret (Return (result report_history c h))
  else
    print exhausted_message ;;
    ret (Return (result report_history c h)).

Fixpoint while_true_st (fuel : nat) (l : Locals R) : M R (Result R) :=
  match fuel with
  | O => out_of_fuel
  | S fuel' =>
      flow <- loop_body_st l ;;
      match flow with
      | Continue l' => while_true_st fuel' l'
      | Return r => ret r
      end
  end.

Definition secant_st_fuel (fuel : nat) (interval : R * R) : M R (Result R) :=
  let '(a, b) := interval in
  (* Ensure the initial interval is valid *)
  fa <- call_st a ;;
  fb <- call_st b ;;
  py_assert (lt (mul fa fb) zero) assert_message ;;
  (* Set the initial condition *)
  while_true_st fuel {| num_iterations := 0; a_next := a; b_next := b;
                        history := empty_history R |}.

End LoopSt.

Definition secant_st (interval : R * R) (max_iterations : Z) (tolerance : R)
           (report_history : bool) : M R (Result R) :=
  secant_st_fuel max_iterations tolerance report_history
                 (S (Z.to_nat max_iterations)) interval.

End Handle.

(** A handle of [numpy.float64] values that answers [-1.0] to its first
    call and [1.0] to every later one. *)
Definition first_call_negative (n : nat) (x : float) : float :=
  if Nat.eqb n 0 then (-1)%float else 1%float.

(** ** Properties *)

(** *** Output *)

(** The two printed lines cannot be confused, and a line printed shows. *)
Lemma exhausted_not_found (n : Z) : exhausted_message <> found_message n.
Proof. unfold exhausted_message, found_message. cbn. discriminate. Qed.

Lemma printed_line_shows (out : list string) (line : string) :
  out <> out ++ [line].
Proof.
  intros E. apply (f_equal (@List.length string)) in E.
  rewrite length_app in E. cbn in E. lia.
Qed.

Lemma printed_line_inj (out : list string) (x y : string) :
  out ++ [x] = out ++ [y] -> x = y.
Proof. intros E. apply app_inv_head in E. congruence. Qed.

Lemma orb_true_cases (x y : bool) :
  x || y = true <-> x = true \/ y = true.
Proof. destruct x, y; cbn; intuition congruence. Qed.

(** *** The solver on floats *)

(** The polynomial of the notebook (as [poly_float]) on [[1.0, 2.0]] with
    [max_iterations=100] and [tolerance=1e-7]: the call prints that it
    found the solution after 8 iterations and returns
    [1.6180339631667067]. *)
Example float_run :
  secant poly_float (1, 2)%float 100 0x1.ad7f29abcaf48p-24%float false
    (start float)
  = (Ok (Solution 0x1.9e37794b9e473p+0%float),
     {| evals := 2 + 7 * 8 + 4;
        heads := heads (snd (secant poly_float (1, 2)%float 100
                               0x1.ad7f29abcaf48p-24%float false
                               (start float)));
        stdout := ["Found solution after 8 iterations."] |}).
Proof. vm_compute. reflexivity. Qed.

(** The cubic [g] on [[-4.0, 3.0]] with [tolerance=0.1]: the call converges
    on its second iteration, with a [y_error] larger than the first one. *)
Example float_errors_grow :
  match fst (secant g_float (-4, 3)%float 5 0x1.999999999999ap-4%float true
               (start float)) with
  | Ok (SolutionHistory _ h) =>
      match y_error h with
      | [y0; y1] => PrimFloat.ltb y0 y1
      | _ => false
      end
  | _ => false
  end = true.
Proof. vm_compute. reflexivity. Qed.

Section Properties.

Context {R : Type} `{Number R}.
Variable func : R -> R.

Section LoopProperties.

Variable max_iterations : Z.
Variable tolerance : R.
Variable report_history : bool.

Abbreviation body := (loop_body func max_iterations tolerance report_history).
Abbreviation loop := (while_true func max_iterations tolerance report_history).
Abbreviation result_of := (result report_history).

(** The loop body, case by case. *)
Lemma loop_body_eq (l : Locals R) (w : World R) :
  body l w =
  let a := a_next l in
  let b := b_next l in
  let c := secant_c func a b in
  let h := recorded func report_history (history l) a b in
  let n := (num_iterations l + 1)%Z in
  if is_zero (denominator func a b) then
    (Raised ZeroDivisionError, after w 3 a b [])
  else if stop func tolerance a b then
    (Ok (Return (result_of c h)),
     after w 4 a b [found_message (num_iterations l)])
  else if (num_iterations l <? max_iterations)%Z then
    if sign_change func a c then
      (Ok (Continue (mkLocals n a c h)), after w 6 a b [])
    else if sign_change func c b then
      (Ok (Continue (mkLocals n c b h)), after w 7 a b [])
    else
      (Ok (Return (result_of c h)), after w 7 a b [])
  else
    (Ok (Return (result_of c h)), after w 4 a b [exhausted_message]).
Proof.
  unfold loop_body, bind, enter, call, truediv, print, ret, raise, after,
    denominator, stop, sign_change, recorded, secant_x_error, secant_y_error,
    secant_c, secant_dx; cbn.
  repeat match goal with
         | |- context [if ?t then _ else _] => destruct t eqn:?; cbn
         end;
    rewrite ?app_nil_r; try reflexivity; try congruence.
Qed.

(** [secant] is the precondition check followed by the loop. *)
Lemma secant_fuel_eq (fuel : nat) (a b : R) (w : World R) :
  secant_fuel func max_iterations tolerance report_history fuel (a, b) w =
  if sign_change func a b then loop fuel (initial a b) (checked w)
  else (Raised (AssertionError assert_message), checked w).
Proof.
  unfold secant_fuel, bind, call, py_assert, sign_change, checked, initial.
  cbn. destruct (lt (mul (func a) (func b)) zero); reflexivity.
Qed.

(** A proof rule for the loop: an invariant of the loop head, carried by
    every pass that continues, and a postcondition met by every exit. *)
Lemma while_true_rule
      (Inv : Locals R -> World R -> Prop)
      (Post : outcome (Result R) -> World R -> Prop) :
  (forall l w, Inv l w -> Post OutOfFuel w) ->
  (forall l w o w', Inv l w -> body l w = (o, w') ->
     match o with
     | Ok (Continue l') => Inv l' w'
     | Ok (Return r) => Post (Ok r) w'
     | Raised e => Post (Raised e) w'
     | OutOfFuel => Post OutOfFuel w'
     end) ->
  forall fuel l w o w', Inv l w -> loop fuel l w = (o, w') -> Post o w'.
Proof.
  intros Hfuel Hstep fuel.
  induction fuel as [|fuel IH]; intros l w o w' HI Hrun; cbn in Hrun.
  - unfold out_of_fuel in Hrun. inversion Hrun; subst. eauto.
  - unfold bind in Hrun.
    destruct (body l w) as [o1 w1] eqn:Hbody.
    specialize (Hstep _ _ _ _ HI Hbody).
    destruct o1 as [[l'|r]|e|].
    + exact (IH _ _ _ _ Hstep Hrun).
    + unfold ret in Hrun. inversion Hrun; subst. exact Hstep.
    + inversion Hrun; subst. exact Hstep.
    + inversion Hrun; subst. exact Hstep.
Qed.

(** The body never runs out of budget: only the loop has one. *)
Lemma loop_body_fuel (l : Locals R) (w : World R) :
  fst (body l w) <> OutOfFuel.
Proof.
  rewrite loop_body_eq; cbv zeta.
  repeat match goal with
         | |- context [if ?t then _ else _] => destruct t
         end; cbn; discriminate.
Qed.

(** A pass that continues has counted one more iteration, below the bound. *)
Lemma loop_body_continue (l l' : Locals R) (w w' : World R) :
  body l w = (Ok (Continue l'), w') ->
  (num_iterations l < max_iterations)%Z /\
  num_iterations l' = (num_iterations l + 1)%Z /\
  heads w' = heads w ++ [(a_next l, b_next l)].
Proof.
  rewrite loop_body_eq; cbv zeta.
  destruct (num_iterations l <? max_iterations)%Z eqn:Hn;
    repeat match goal with
           | |- context [if ?t then _ else _] => destruct t
           end; intros E; inversion E; subst; cbn;
    apply Z.ltb_lt in Hn; auto.
Qed.

(** Every pass logs its pair, whatever its outcome. *)
Lemma loop_body_heads (l : Locals R) (w : World R) :
  heads (snd (body l w)) = heads w ++ [(a_next l, b_next l)].
Proof.
  rewrite loop_body_eq; cbv zeta.
  repeat match goal with
         | |- context [if ?t then _ else _] => destruct t
         end; reflexivity.
Qed.

(** With more passes allowed than iterations are left, the loop leaves. *)
Lemma while_true_enough (fuel : nat) :
  forall (l : Locals R) (w : World R),
    (Z.to_nat (max_iterations - num_iterations l) < fuel)%nat ->
    fst (loop fuel l w) <> OutOfFuel.
Proof.
  induction fuel as [|fuel IH]; intros l w Hlt; [lia|].
  cbn. unfold bind.
  destruct (body l w) as [o1 w1] eqn:Hbody.
  destruct o1 as [[l'|r]|e|]; cbn; try discriminate.
  - apply loop_body_continue in Hbody. destruct Hbody as (Hn & Hl' & _).
    apply IH. rewrite Hl'. lia.
  - pose proof (loop_body_fuel l w) as Hf. rewrite Hbody in Hf.
    exfalso. apply Hf. reflexivity.
Qed.

(** A run that left the loop is the same under any larger budget. *)
Lemma while_true_more (fuel k : nat) :
  forall (l : Locals R) (w w' : World R) (o : outcome (Result R)),
    loop fuel l w = (o, w') -> o <> OutOfFuel ->
    loop (fuel + k) l w = (o, w').
Proof.
  induction fuel as [|fuel IH]; intros l w w' o Hrun Ho; cbn in *.
  - unfold out_of_fuel in Hrun. inversion Hrun; subst. congruence.
  - unfold bind in *.
    destruct (body l w) as [o1 w1].
    destruct o1 as [[l'|r]|e|]; auto.
Qed.

(** C2: in every iteration whose step is computed, the stopping rule is an
    "or": as soon as [x_error < tolerance] or [y_error < tolerance] the
    call returns the current estimate [c] (either test alone is enough,
    whatever the iteration count); a pass that goes round again has met
    neither; and the exit of the stopping rule, the one that prints the
    solution-found line, is taken exactly when one of the two tests
    holds. *)
Theorem stopping_rule_is_or (l : Locals R) (w : World R) :
  is_zero (denominator func (a_next l) (b_next l)) = false ->
  let a := a_next l in
  let b := b_next l in
  let c := secant_c func a b in
  let h := recorded func report_history (history l) a b in
  let met := lt (secant_x_error func a b) tolerance = true \/
             lt (secant_y_error func a b) tolerance = true in
  (met -> forall fuel,
      loop (S fuel) l w =
      (Ok (result_of c h), after w 4 a b [found_message (num_iterations l)]))
  /\ (forall l' w', body l w = (Ok (Continue l'), w') ->
        lt (secant_x_error func a b) tolerance = false /\
        lt (secant_y_error func a b) tolerance = false)
  /\ ((exists r w', body l w = (Ok (Return r), w') /\ solution r = c /\
         stdout w' = stdout w ++ [found_message (num_iterations l)])
      <-> met).
Proof.
  intros Hden a b c h met.
  assert (Hmet : met <-> stop func tolerance a b = true)
    by (unfold met, stop; symmetry; apply orb_true_cases).
  pose proof (loop_body_eq l w) as Hb. cbv zeta in Hb.
  rewrite Hden in Hb. fold a b c h in Hb.
  split; [|split].
  - intros Hm fuel. apply Hmet in Hm. rewrite Hm in Hb.
    cbn. unfold bind. rewrite Hb. reflexivity.
  - intros l' w' E.
    destruct (stop func tolerance a b) eqn:Hs.
    + rewrite Hb in E. discriminate.
    + unfold stop in Hs. apply orb_false_iff in Hs. exact Hs.
  - split.
    + intros (r & w' & E & _ & Hout). apply Hmet.
      destruct (stop func tolerance a b) eqn:Hs; [reflexivity|exfalso].
      rewrite Hb in E.
      repeat match type of E with
             | context [if ?t then _ else _] => destruct t
             end; inversion E; subst; unfold after in Hout;
        cbn [stdout] in Hout; rewrite ?app_nil_r in Hout.
      * now apply printed_line_shows in Hout.
      * apply printed_line_inj in Hout.
        now apply exhausted_not_found in Hout.
    + intros Hm. apply Hmet in Hm. rewrite Hm in Hb.
      eexists _, _. split; [exact Hb|]. split; [|reflexivity].
      unfold result. destruct report_history; reflexivity.
Qed.

(** C4: when the stopping rule is not met and the iteration count is still
    below [max_iterations], the sign test selects the next pair:
    [(a_next, c)] if [f(a_next) * f(c) < 0], else [(c, b_next)] if
    [f(c) * f(b_next) < 0]; with no sign change against either endpoint the
    call returns [c] at once, without raising and without printing. *)
Theorem next_pair_by_sign_test (l : Locals R) (w : World R) :
  is_zero (denominator func (a_next l) (b_next l)) = false ->
  stop func tolerance (a_next l) (b_next l) = false ->
  (num_iterations l < max_iterations)%Z ->
  let a := a_next l in
  let b := b_next l in
  let c := secant_c func a b in
  let h := recorded func report_history (history l) a b in
  let n := (num_iterations l + 1)%Z in
  body l w =
    (if lt (mul (func a) (func c)) zero then
       (Ok (Continue (mkLocals n a c h)), after w 6 a b [])
     else if lt (mul (func c) (func b)) zero then
       (Ok (Continue (mkLocals n c b h)), after w 7 a b [])
     else
       (Ok (Return (result_of c h)), after w 7 a b []))
  /\ (lt (mul (func a) (func c)) zero = false ->
      lt (mul (func c) (func b)) zero = false ->
      forall fuel,
        loop (S fuel) l w = (Ok (result_of c h), after w 7 a b [])).
Proof.
  intros Hden Hstop Hn a b c h n.
  pose proof (loop_body_eq l w) as Hb. cbv zeta in Hb.
  rewrite Hden, Hstop in Hb. apply Z.ltb_lt in Hn. rewrite Hn in Hb.
  fold a b c h n in Hb. unfold sign_change in Hb.
  split; [exact Hb|].
  intros H1 H2 fuel. rewrite H1, H2 in Hb.
  cbn. unfold bind. rewrite Hb. reflexivity.
Qed.

(** C7: when the iteration count has reached [max_iterations] and the
    stopping rule is not met, the call returns the current estimate [c]
    without failing, and says so: it prints the maximum-iterations line,
    which no convergence exit prints. *)
Theorem exhausted_returns_estimate (l : Locals R) (w : World R) (fuel : nat) :
  is_zero (denominator func (a_next l) (b_next l)) = false ->
  stop func tolerance (a_next l) (b_next l) = false ->
  (max_iterations <= num_iterations l)%Z ->
  let a := a_next l in
  let b := b_next l in
  let c := secant_c func a b in
  let h := recorded func report_history (history l) a b in
  loop (S fuel) l w =
    (Ok (result_of c h), after w 4 a b [exhausted_message])
  /\ solution (result_of c h) = c
  /\ forall n, exhausted_message <> found_message n.
Proof.
  intros Hden Hstop Hn a b c h.
  pose proof (loop_body_eq l w) as Hb. cbv zeta in Hb.
  rewrite Hden, Hstop in Hb. apply Z.ltb_ge in Hn. rewrite Hn in Hb.
  fold a b c h in Hb.
  split; [|split].
  - cbn. unfold bind. rewrite Hb. reflexivity.
  - unfold result. destruct report_history; reflexivity.
  - exact exhausted_not_found.
Qed.

End LoopProperties.

(** *** Whole calls *)

(** Case analysis of one pass of the body, from its equation. *)
Ltac body_cases E :=
  rewrite loop_body_eq in E; cbv zeta in E;
  repeat match type of E with
         | context [if ?t then _ else _] => destruct t eqn:?
         end;
  inversion E; subst; clear E.

(** C3: when the precondition test [f(a) * f(b) < 0] fails (so whenever
    [f(a) * f(b) >= 0]), the call raises the precondition error before any
    iteration runs: no result is returned, the loop body is never entered,
    nothing is printed and [func] has been evaluated exactly twice. *)
Theorem precondition_violation
        (a b : R) (max_iterations : Z) (tolerance : R) (report_history : bool) :
  lt (mul (func a) (func b)) zero = false ->
  secant func (a, b) max_iterations tolerance report_history (start R) =
    (Raised (AssertionError assert_message),
     {| evals := 2; heads := []; stdout := [] |}).
Proof.
  intros Hsign. unfold secant. rewrite secant_fuel_eq.
  unfold sign_change. rewrite Hsign. reflexivity.
Qed.

(** C5: on an interval with [f(a) * f(b) < 0], for a non-negative
    [max_iterations] and a positive [tolerance], the call ends (with a
    result or an exception, never by exhausting the loop budget) after at
    least one and at most [max_iterations + 1] iterations; a larger budget
    changes nothing. *)
Theorem secant_terminates
        (a b : R) (max_iterations : Z) (tolerance : R) (report_history : bool) :
  lt (mul (func a) (func b)) zero = true ->
  (0 <= max_iterations)%Z ->
  lt zero tolerance = true ->
  exists o w',
    secant func (a, b) max_iterations tolerance report_history (start R)
      = (o, w') /\
    o <> OutOfFuel /\
    (1 <= iterations w')%nat /\
    (Z.of_nat (iterations w') <= max_iterations + 1)%Z /\
    forall k,
      secant_fuel func max_iterations tolerance report_history
        (S (Z.to_nat max_iterations) + k) (a, b) (start R) = (o, w').
Proof.
  intros Hsign Hmax _.
  unfold secant.
  destruct (secant_fuel func max_iterations tolerance report_history
              (S (Z.to_nat max_iterations)) (a, b) (start R))
    as [o w'] eqn:Hrun.
  exists o, w'. split; [reflexivity|].
  rewrite secant_fuel_eq in Hrun. unfold sign_change in Hrun.
  rewrite Hsign in Hrun.
  assert (Ho : o <> OutOfFuel).
  { pose proof (@while_true_enough max_iterations tolerance report_history
                  (S (Z.to_nat max_iterations)) (initial a b)
                  (checked (start R))) as Hen.
    rewrite Hrun in Hen. apply Hen. cbn. lia. }
  split; [exact Ho|].
  assert (Hbound : (1 <= iterations w')%nat /\
                   (Z.of_nat (iterations w') <= max_iterations + 1)%Z).
  { refine (@while_true_rule _ _ _
              (fun l w => Z.of_nat (iterations w) = num_iterations l /\
                          (num_iterations l <= max_iterations)%Z)
              (fun o w => o <> OutOfFuel ->
                          (1 <= iterations w)%nat /\
                          (Z.of_nat (iterations w) <= max_iterations + 1)%Z)
              _ _ _ _ _ _ _ _ Hrun Ho).
    - intros l w _ E. congruence.
    - intros l w o1 w1 [Hit Hle] Hbody.
      assert (Hw1 : iterations w1 = S (iterations w)).
      { pose proof (loop_body_heads max_iterations tolerance report_history
                      l w) as Hh.
        rewrite Hbody in Hh. cbn in Hh. unfold iterations.
        rewrite Hh, length_app. cbn. lia. }
      destruct o1 as [[l'|r]|e|].
      + apply loop_body_continue in Hbody. lia.
      + intros _. lia.
      + intros _. lia.
      + intros E. congruence.
    - cbn. lia. }
  split; [exact (proj1 Hbound)|]. split; [exact (proj2 Hbound)|].
  intros k. rewrite secant_fuel_eq. unfold sign_change. rewrite Hsign.
  apply while_true_more; assumption.
Qed.

(** C10: the bracketing invariant.  Every pair at which the loop body is
    entered in a call - the initial pair and each pair selected by the sign
    test - satisfies [f(a_next) * f(b_next) < 0], however the call ends. *)
Theorem bracket_invariant
        (a b : R) (max_iterations : Z) (tolerance : R) (report_history : bool)
        (fuel : nat) (o : outcome (Result R)) (w' : World R) :
  secant_fuel func max_iterations tolerance report_history fuel (a, b)
    (start R) = (o, w') ->
  Forall (fun p => lt (mul (func (fst p)) (func (snd p))) zero = true)
         (heads w').
Proof.
  intros Hrun. rewrite secant_fuel_eq in Hrun.
  destruct (sign_change func a b) eqn:Hsign.
  - set (P := fun p : R * R =>
                lt (mul (func (fst p)) (func (snd p))) zero = true).
    refine (@while_true_rule _ _ _
              (fun l w => Forall P (heads w) /\ P (a_next l, b_next l))
              (fun _ w => Forall P (heads w))
              _ _ _ _ _ _ _ _ Hrun).
    + intros l w [Hall _]. exact Hall.
    + intros l w o1 w1 [Hall Hp] Hbody.
      assert (Hw1 : Forall P (heads w1)).
      { pose proof (loop_body_heads max_iterations tolerance report_history
                      l w) as Hh.
        rewrite Hbody in Hh. cbn in Hh. rewrite Hh.
        apply Forall_app. split; [exact Hall|]. constructor; [exact Hp|].
        constructor. }
      destruct o1 as [[l'|r]|e|]; try exact Hw1.
      split; [exact Hw1|].
      body_cases Hbody; assumption.
    + split; [constructor|exact Hsign].
  - inversion Hrun; subst. constructor.
Qed.

(** [secant] is total: whatever its arguments, [max_iterations + 1] passes
    are enough, and allowing more changes nothing. *)
Lemma secant_fuel_enough
      (interval : R * R) (max_iterations : Z) (tolerance : R)
      (report_history : bool) (w : World R) (k : nat) :
  fst (secant func interval max_iterations tolerance report_history w)
    <> OutOfFuel /\
  secant_fuel func max_iterations tolerance report_history
    (S (Z.to_nat max_iterations) + k) interval w
  = secant func interval max_iterations tolerance report_history w.
Proof.
  destruct interval as [a b]. unfold secant. rewrite !secant_fuel_eq.
  destruct (sign_change func a b); [|split; [discriminate|reflexivity]].
  assert (Hen : fst (while_true func max_iterations tolerance report_history
                       (S (Z.to_nat max_iterations)) (initial a b)
                       (checked w)) <> OutOfFuel)
    by (apply while_true_enough; cbn; lia).
  split; [exact Hen|].
  destruct (while_true func max_iterations tolerance report_history
              (S (Z.to_nat max_iterations)) (initial a b) (checked w))
    as [o w'] eqn:Hrun.
  apply while_true_more; assumption.
Qed.

Lemma record_trace (ps : list (R * R)) (a b : R) :
  record (trace func ps) (secant_c func a b) (secant_x_error func a b)
         (secant_y_error func a b)
  = trace func (ps ++ [(a, b)]).
Proof. unfold record, trace; cbn. rewrite !map_app. reflexivity. Qed.

(** What a call that returns has done: it went through the pairs [ps]
    without meeting the stopping rule, then returned the estimate of a last
    pair [p]; its history is the trace of all these pairs; and it printed
    the solution-found line exactly when the stopping rule held at [p]. *)
Lemma secant_run
      (a b : R) (max_iterations : Z) (tolerance : R) (report_history : bool)
      (fuel : nat) (r : Result R) (w' : World R) :
  secant_fuel func max_iterations tolerance report_history fuel (a, b)
    (start R) = (Ok r, w') ->
  exists ps p,
    heads w' = ps ++ [p] /\
    r = result report_history (secant_c func (fst p) (snd p))
          (if report_history then trace func (heads w')
           else empty_history R) /\
    Forall (fun q => stop func tolerance (fst q) (snd q) = false) ps /\
    (stop func tolerance (fst p) (snd p) = true <->
     exists n, stdout w' = [found_message n]).
Proof.
  intros Hrun. rewrite secant_fuel_eq in Hrun.
  destruct (sign_change func a b); [|discriminate].
  set (tr := fun ps : list (R * R) =>
               if report_history then trace func ps else empty_history R).
  assert (Htr : forall ps x y,
             recorded func report_history (tr ps) x y = tr (ps ++ [(x, y)])).
  { intros ps x y. unfold recorded, tr.
    destruct report_history; [apply record_trace|reflexivity]. }
  set (quiet := fun q : R * R => stop func tolerance (fst q) (snd q) = false).
  refine (@while_true_rule max_iterations tolerance report_history
            (fun l w => history l = tr (heads w) /\ Forall quiet (heads w) /\
                        stdout w = [])
            (fun o w' => forall r, o = Ok r ->
               exists ps p,
                 heads w' = ps ++ [p] /\
                 r = result report_history (secant_c func (fst p) (snd p))
                       (tr (heads w')) /\
                 Forall quiet ps /\
                 (stop func tolerance (fst p) (snd p) = true <->
                  exists n, stdout w' = [found_message n]))
            _ _ _ _ _ _ _ _ Hrun r eq_refl).
  - intros l w _ r0 E. discriminate.
  - intros l w o1 w1 (Hh & Hq & Hout) Hbody.
    destruct o1 as [[l'|r1]|e|]; try (intros r0 E; discriminate).
    + body_cases Hbody; cbn; rewrite Hh, Htr, Hout;
        (split; [reflexivity|]); (split; [|reflexivity]);
        apply Forall_app; (split; [exact Hq|]);
        constructor; [assumption|constructor|assumption|constructor].
    + intros r0 E. injection E as <-.
      exists (heads w), (a_next l, b_next l).
      body_cases Hbody; cbn; rewrite Hh, Htr, Hout, ?app_nil_r;
        (split; [reflexivity|]); (split; [reflexivity|]);
        (split; [exact Hq|]);
        match goal with
        | Hs : stop _ _ _ _ = _ |- _ => rewrite Hs
        end.
      * split; [intros _; eexists; reflexivity|reflexivity].
      * split; [discriminate|]. intros [n E]. discriminate.
      * split; [discriminate|]. intros [n E].
        change ([exhausted_message] = [found_message n]) in E.
        assert (Hm : exhausted_message = found_message n) by congruence.
        now apply exhausted_not_found in Hm.
  - cbn. split; [|split; [constructor|reflexivity]].
    unfold tr. destruct report_history; reflexivity.
Qed.

(** C1: in every iteration of a call that returns, at the pair
    [(a_next, b_next)] of that iteration, the step is
    [dx = -f(a_next) * (b_next - a_next) / (f(b_next) - f(a_next))], the new
    estimate is [c = a_next + dx], and the errors are [x_error = |dx|] and
    [y_error = |f(c)|]: the history holds exactly these values, iteration
    by iteration, and the estimate returned is the [c] of the last one. *)
Theorem secant_step_formulas
        (a b : R) (max_iterations : Z) (tolerance : R) (report_history : bool)
        (r : Result R) (w' : World R) :
  secant func (a, b) max_iterations tolerance report_history (start R)
    = (Ok r, w') ->
  let dx := fun p : R * R =>
    div (mul (neg (func (fst p))) (sub (snd p) (fst p)))
        (sub (func (snd p)) (func (fst p))) in
  let c := fun p : R * R => add (fst p) (dx p) in
  (exists ps p, heads w' = ps ++ [p] /\ solution r = c p) /\
  (report_history = true ->
   history_of r =
   Some {| estimation := map c (heads w');
           x_error := map (fun p => abs (dx p)) (heads w');
           y_error := map (fun p => abs (func (c p))) (heads w') |}).
Proof.
  intros Hrun dx c. apply secant_run in Hrun.
  destruct Hrun as (ps & p & Hheads & Hr & _).
  split.
  - exists ps, p. split; [exact Hheads|]. rewrite Hr.
    unfold result. destruct report_history; reflexivity.
  - intros ->. rewrite Hr. reflexivity.
Qed.

(** C6: a call with [report_history=True] that returns hands back a
    history whose three fields each have as many entries as iterations
    were performed. *)
Theorem history_lengths
        (a b : R) (max_iterations : Z) (tolerance : R)
        (r : Result R) (w' : World R) :
  secant func (a, b) max_iterations tolerance true (start R) = (Ok r, w') ->
  exists c h,
    r = SolutionHistory c h /\
    List.length (estimation h) = iterations w' /\
    List.length (x_error h) = iterations w' /\
    List.length (y_error h) = iterations w'.
Proof.
  intros Hrun. apply secant_run in Hrun.
  destruct Hrun as (ps & p & _ & Hr & _).
  cbn in Hr. eexists _, _. split; [exact Hr|].
  unfold trace, iterations; cbn. rewrite !length_map. auto.
Qed.

(** C9, as the code has it: in the history of a call with
    [report_history=True] that returns, no entry before the final one has
    [x_error < tolerance] or [y_error < tolerance]; and the final entry has
    [x_error < tolerance] or [y_error < tolerance] exactly when the call
    ended by the stopping rule (it printed the solution-found line). *)
Theorem final_errors_and_tolerance
        (a b : R) (max_iterations : Z) (tolerance : R)
        (r : Result R) (w' : World R) :
  secant func (a, b) max_iterations tolerance true (start R) = (Ok r, w') ->
  exists c h xs x ys y,
    r = SolutionHistory c h /\
    x_error h = xs ++ [x] /\
    y_error h = ys ++ [y] /\
    Forall (fun e => lt e tolerance = false) xs /\
    Forall (fun e => lt e tolerance = false) ys /\
    ((lt x tolerance = true \/ lt y tolerance = true) <->
     exists n, stdout w' = [found_message n]).
Proof.
  intros Hrun. apply secant_run in Hrun.
  destruct Hrun as (ps & p & Hheads & Hr & Hquiet & Hstop).
  cbn in Hr. rewrite Hheads in Hr.
  exists (secant_c func (fst p) (snd p)), (trace func (ps ++ [p])),
    (map (fun q => secant_x_error func (fst q) (snd q)) ps),
    (secant_x_error func (fst p) (snd p)),
    (map (fun q => secant_y_error func (fst q) (snd q)) ps),
    (secant_y_error func (fst p) (snd p)).
  split; [exact Hr|].
  split; [unfold trace; cbn; rewrite map_app; reflexivity|].
  split; [unfold trace; cbn; rewrite map_app; reflexivity|].
  split; [|split].
  - apply Forall_map. revert Hquiet. apply Forall_impl.
    intros q Hq. unfold stop in Hq. apply orb_false_iff in Hq.
    exact (proj1 Hq).
  - apply Forall_map. revert Hquiet. apply Forall_impl.
    intros q Hq. unfold stop in Hq. apply orb_false_iff in Hq.
    exact (proj2 Hq).
  - rewrite <- Hstop. unfold stop. symmetry. apply orb_true_cases.
Qed.

End Properties.

(** ** Exact arithmetic *)

(** Over the rationals the tests of the code are the order of [Q]. *)
Lemma Qlt_bool_iff (x y : Q) : Qlt_bool x y = true <-> (x < y)%Q.
Proof.
  unfold Qlt_bool. rewrite negb_true_iff.
  split.
  - intros Hle. apply Qnot_le_lt. intros Hyx.
    apply Qle_bool_iff in Hyx. congruence.
  - intros Hlt. destruct (Qle_bool y x) eqn:Hle; [|reflexivity].
    apply Qle_bool_iff in Hle. exfalso. apply (Qlt_not_le _ _ Hlt Hle).
Qed.

(** Values of opposite signs differ: a pair that passes the sign test has a
    secant denominator that is not zero. *)
Lemma sign_change_denominator (func : Q -> Q) (a b : Q) :
  sign_change func a b = true ->
  is_zero (denominator func a b) = false.
Proof.
  unfold sign_change, denominator; cbn. intros Hsign.
  apply Qlt_bool_iff in Hsign.
  destruct (Qeq_bool (func b - func a) 0) eqn:Hz; [exfalso|reflexivity].
  apply Qeq_bool_iff in Hz.
  assert (Hsq : (0 <= func a * func a)%Q) by nra.
  assert (Heq : (func b == func a)%Q) by lra.
  rewrite Heq in Hsign. lra.
Qed.

(** The precondition error over the rationals, with the claim's test
    [f(a) * f(b) >= 0]. *)
Lemma precondition_violation_Q
      (func : Q -> Q) (a b : Q) (max_iterations : Z) (tolerance : Q)
      (report_history : bool) :
  (0 <= func a * func b)%Q ->
  secant func (a, b) max_iterations tolerance report_history (start Q) =
    (Raised (AssertionError assert_message),
     {| evals := 2; heads := []; stdout := [] |}).
Proof.
  intros Hge. unfold secant. rewrite secant_fuel_eq.
  destruct (sign_change func a b) eqn:Hsign; [exfalso|reflexivity].
  unfold sign_change in Hsign; cbn in Hsign.
  apply Qlt_bool_iff in Hsign. lra.
Qed.

(** So a call over the rationals never divides by zero: with the
    bracketing invariant, every step of the loop has a denominator. *)
Lemma rational_call_divides (func : Q -> Q) (a b : Q) (max_iterations : Z)
      (tolerance : Q) (report_history : bool) (w' : World Q) :
  secant func (a, b) max_iterations tolerance report_history (start Q)
  <> (Raised ZeroDivisionError, w').
Proof.
  intros Hrun. unfold secant in Hrun. rewrite secant_fuel_eq in Hrun.
  destruct (sign_change func a b) eqn:Hsign; [|discriminate].
  refine (@while_true_rule Q _ func max_iterations tolerance report_history
            (fun l _ => sign_change func (a_next l) (b_next l) = true)
            (fun o _ => o <> Raised ZeroDivisionError)
            _ _ _ _ _ _ _ _ Hrun eq_refl).
  - intros l w _. discriminate.
  - intros l w o1 w1 Hinv Hbody.
    rewrite loop_body_eq in Hbody; cbv zeta in Hbody.
    rewrite (sign_change_denominator _ _ _ Hinv) in Hbody.
    repeat match type of Hbody with
           | context [if ?t then _ else _] => destruct t eqn:?
           end;
      inversion Hbody; subst; clear Hbody; cbn; try assumption;
      discriminate.
  - exact Hsign.
Qed.

(** ** The properties at concrete inputs *)

(** C9 fails as stated: on [g(x) = -x**3 - x**2 + x + 1] and [[-4, 3]] with
    tolerance [1/10] the call stops by the stopping rule after two
    iterations ([x_error = 45/473 < 1/10]), yet the final [y_error],
    [91035/79507], is larger than the [y_error] before it, [1440/1331]. *)
Lemma final_errors_not_smallest :
  exists c h w',
    secant g_Q (-4, 3)%Q 5 (1 # 10)%Q true (start Q)
      = (Ok (SolutionHistory c h), w') /\
    stdout w' = [found_message 1] /\
    List.length (y_error h) = 2%nat /\
    final_is_smallest (y_error h) = false.
Proof.
  eexists _, _, _. split; [vm_compute; reflexivity|].
  vm_compute. repeat split.
Qed.

Lemma secant_step_formulas_witness :
  exists r w',
    secant f_Q (1, 2)%Q 1 (1 # 100)%Q true (start Q) = (Ok r, w') /\
    exists ps p,
      heads w' = ps ++ [p] /\ solution r = secant_c f_Q (fst p) (snd p).
Proof.
  eexists _, _. split; [vm_compute; reflexivity|].
  refine (proj1 (@secant_step_formulas Q _ f_Q 1%Q 2%Q 1 (1 # 100)%Q true
                   _ _ _)).
  vm_compute. reflexivity.
Defined.

Lemma stopping_rule_is_or_witness :
  is_zero (denominator f_Q 1%Q 2%Q) = false /\
  fst (while_true f_Q 5 1%Q true 1 (initial 1%Q 2%Q) (start Q)) =
  Ok (result true (secant_c f_Q 1%Q 2%Q)
             (recorded f_Q true (empty_history Q) 1%Q 2%Q)).
Proof.
  assert (Hden : is_zero (denominator f_Q (a_next (initial 1%Q 2%Q))
                                      (b_next (initial 1%Q 2%Q))) = false)
    by (vm_compute; reflexivity).
  split; [exact Hden|].
  destruct (@stopping_rule_is_or Q _ f_Q 5 1%Q true (initial 1%Q 2%Q)
              (start Q) Hden) as [Hstop _].
  rewrite (Hstop (or_introl eq_refl) 0%nat). reflexivity.
Defined.

Lemma precondition_violation_witness :
  secant f_Q (2, 3)%Q 5 (1 # 100)%Q true (start Q) =
    (Raised (AssertionError assert_message),
     {| evals := 2; heads := []; stdout := [] |}).
Proof.
  apply (@precondition_violation Q _ f_Q 2%Q 3%Q 5 (1 # 100)%Q true).
  vm_compute. reflexivity.
Defined.

Lemma next_pair_by_sign_test_witness :
  fst (loop_body f_Q 5 (1 # 100)%Q true (initial 1%Q 2%Q) (start Q)) =
  Ok (Continue (mkLocals 1 (secant_c f_Q 1%Q 2%Q) 2%Q
                         (recorded f_Q true (empty_history Q) 1%Q 2%Q))).
Proof.
  destruct (@next_pair_by_sign_test Q _ f_Q 5 (1 # 100)%Q true
              (initial 1%Q 2%Q) (start Q)) as [Hbody _].
  - vm_compute. reflexivity.
  - vm_compute. reflexivity.
  - cbn. lia.
  - rewrite Hbody. vm_compute. reflexivity.
Defined.

Lemma secant_terminates_witness :
  exists o w',
    secant f_Q (1, 2)%Q 5 (1 # 100)%Q false (start Q) = (o, w') /\
    o <> OutOfFuel /\
    (1 <= iterations w')%nat /\
    (Z.of_nat (iterations w') <= 5 + 1)%Z /\
    forall k,
      secant_fuel f_Q 5 (1 # 100)%Q false (S (Z.to_nat 5) + k) (1, 2)%Q
        (start Q) = (o, w').
Proof.
  apply (@secant_terminates Q _ f_Q 1%Q 2%Q 5 (1 # 100)%Q false).
  - vm_compute. reflexivity.
  - lia.
  - vm_compute. reflexivity.
Defined.

Lemma history_lengths_witness :
  exists r w',
    secant f_Q (1, 2)%Q 1 (1 # 100)%Q true (start Q) = (Ok r, w') /\
    exists c h,
      r = SolutionHistory c h /\
      List.length (estimation h) = iterations w' /\
      List.length (x_error h) = iterations w' /\
      List.length (y_error h) = iterations w'.
Proof.
  eexists _, _. split; [vm_compute; reflexivity|].
  apply (@history_lengths Q _ f_Q 1%Q 2%Q 1 (1 # 100)%Q).
  vm_compute. reflexivity.
Defined.

Lemma exhausted_returns_estimate_witness :
  stdout (snd (while_true f_Q 0 (1 # 100)%Q true 1 (initial 1%Q 2%Q)
                 (checked (start Q)))) = [exhausted_message].
Proof.
  destruct (@exhausted_returns_estimate Q _ f_Q 0 (1 # 100)%Q true
              (initial 1%Q 2%Q) (checked (start Q)) 0%nat) as [Hrun _].
  - vm_compute. reflexivity.
  - vm_compute. reflexivity.
  - cbn. lia.
  - rewrite Hrun. reflexivity.
Defined.

Lemma final_errors_and_tolerance_witness :
  exists r w',
    secant g_Q (-4, 3)%Q 5 (1 # 10)%Q true (start Q) = (Ok r, w') /\
    exists c h xs x ys y,
      r = SolutionHistory c h /\
      x_error h = xs ++ [x] /\
      y_error h = ys ++ [y] /\
      Forall (fun e => lt e (1 # 10)%Q = false) xs /\
      Forall (fun e => lt e (1 # 10)%Q = false) ys /\
      ((lt x (1 # 10)%Q = true \/ lt y (1 # 10)%Q = true) <->
       exists n, stdout w' = [found_message n]).
Proof.
  eexists _, _. split; [vm_compute; reflexivity|].
  apply (@final_errors_and_tolerance Q _ g_Q (-4)%Q 3%Q 5 (1 # 10)%Q).
  vm_compute. reflexivity.
Defined.

Lemma bracket_invariant_witness :
  exists o w',
    secant_fuel f_Q 3 (1 # 100)%Q true 4 (1, 2)%Q (start Q) = (o, w') /\
    Forall (fun p => lt (mul (f_Q (fst p)) (f_Q (snd p))) zero = true)
           (heads w').
Proof.
  eexists _, _. split; [vm_compute; reflexivity|].
  refine (@bracket_invariant Q _ f_Q 1%Q 2%Q 3 (1 # 100)%Q true 4%nat
            _ _ _).
  vm_compute. reflexivity.
Defined.

(** ** More about whole calls *)

(** Case analysis of one pass of the body, from its equation. *)
Ltac split_cases E :=
  cbv zeta in E;
  repeat match type of E with
         | context [if ?t then _ else _] => destruct t eqn:?
         end;
  inversion E; subst; clear E;
  repeat match goal with
         | Hlt : (_ <? _)%Z = true |- _ => apply Z.ltb_lt in Hlt
         | Hge : (_ <? _)%Z = false |- _ => apply Z.ltb_ge in Hge
         end.

Ltac pass_cases E := rewrite loop_body_eq in E; split_cases E.

Section CallProperties.

Context {R : Type} `{Number R}.
Variable func : R -> R.

(** X1: the cost of a call in evaluations of [func].  Whatever the outcome,
    [func] is evaluated at most twice for the precondition and seven times
    per iteration, and there are at most [max(max_iterations, 0) + 1]
    iterations. *)
Theorem evaluations_bound
        (a b : R) (max_iterations : Z) (tolerance : R) (report_history : bool) :
  let w' := snd (secant func (a, b) max_iterations tolerance report_history
                   (start R)) in
  (evals w' <= 2 + 7 * iterations w')%nat /\
  (iterations w' <= S (Z.to_nat max_iterations))%nat.
Proof.
  cbv zeta. unfold secant. rewrite secant_fuel_eq.
  destruct (sign_change func a b); [|cbn; lia].
  destruct (while_true func max_iterations tolerance report_history
              (S (Z.to_nat max_iterations)) (initial a b)
              (checked (start R))) as [o w'] eqn:Hrun.
  cbn [snd].
  refine (@while_true_rule R _ func max_iterations tolerance report_history
            (fun l w => (evals w <= 2 + 7 * iterations w)%nat /\
                        Z.of_nat (iterations w) = num_iterations l /\
                        (num_iterations l <= Z.max 0 max_iterations)%Z)
            (fun _ w => (evals w <= 2 + 7 * iterations w)%nat /\
                        (iterations w <= S (Z.to_nat max_iterations))%nat)
            _ _ _ _ _ _ _ _ Hrun).
  - intros l w (He & Hn & Hle). split; [exact He|lia].
  - intros l w o1 w1 (He & Hn & Hle) Hbody.
    destruct o1 as [[l'|r]|e|]; pass_cases Hbody;
      unfold after, iterations in *; cbn [evals heads num_iterations];
      rewrite length_app; cbn [List.length]; lia.
  - cbn. lia.
Qed.

(** X2: what a call prints.  It prints nothing unless it returns, and then
    at most one line: the solution-found line, whose count is the number of
    iterations performed minus one, or the maximum-iterations line, which
    appears only after exactly [max(max_iterations, 0) + 1] iterations. *)
Theorem printed_line
        (a b : R) (max_iterations : Z) (tolerance : R) (report_history : bool)
        (o : outcome (Result R)) (w' : World R) :
  secant func (a, b) max_iterations tolerance report_history (start R)
    = (o, w') ->
  match o with
  | Ok _ =>
      stdout w' = [] \/
      stdout w' = [found_message (Z.of_nat (iterations w') - 1)] \/
      (stdout w' = [exhausted_message] /\
       iterations w' = S (Z.to_nat max_iterations))
  | _ => stdout w' = []
  end.
Proof.
  unfold secant. rewrite secant_fuel_eq.
  destruct (sign_change func a b);
    [|intros E; inversion E; subst; reflexivity].
  intros Hrun.
  refine (@while_true_rule R _ func max_iterations tolerance report_history
            (fun l w => stdout w = [] /\
                        Z.of_nat (iterations w) = num_iterations l /\
                        (num_iterations l <= Z.max 0 max_iterations)%Z)
            (fun o w' =>
               match o with
               | Ok _ =>
                   stdout w' = [] \/
                   stdout w' = [found_message (Z.of_nat (iterations w') - 1)]
                   \/ (stdout w' = [exhausted_message] /\
                       iterations w' = S (Z.to_nat max_iterations))
               | _ => stdout w' = []
               end)
            _ _ _ _ _ _ _ _ Hrun).
  - intros l w (Hout & _). exact Hout.
  - intros l w o1 w1 (Hout & Hn & Hle) Hbody.
    assert (Hit : forall k out,
               Z.of_nat (iterations (after w k (a_next l) (b_next l) out))
               = (num_iterations l + 1)%Z).
    { intros k out. unfold after, iterations in *; cbn [heads].
      rewrite length_app; cbn [List.length]. lia. }
    destruct o1 as [[l'|r]|e|]; pass_cases Hbody.
    + split; [|split].
      * unfold after; cbn [stdout]. rewrite Hout. reflexivity.
      * rewrite Hit. reflexivity.
      * cbn [num_iterations]. lia.
    + split; [|split].
      * unfold after; cbn [stdout]. rewrite Hout. reflexivity.
      * rewrite Hit. reflexivity.
      * cbn [num_iterations]. lia.
    + right; left. rewrite Hit. unfold after; cbn [stdout]. rewrite Hout.
      cbn [app]. f_equal. f_equal. lia.
    + left. unfold after; cbn [stdout]. rewrite Hout. reflexivity.
    + right; right. split.
      * unfold after; cbn [stdout]. rewrite Hout. reflexivity.
      * specialize (Hit 4%nat [exhausted_message]). lia.
    + unfold after; cbn [stdout]. rewrite Hout. reflexivity.
  - cbn. split; [reflexivity|]. lia.
Qed.

(** The loop without the history is the loop with it, history dropped. *)
Lemma while_true_history
      (max_iterations : Z) (tolerance : R) (fuel : nat) :
  forall (l l' : Locals R) (w : World R),
    num_iterations l' = num_iterations l ->
    a_next l' = a_next l ->
    b_next l' = b_next l ->
    while_true func max_iterations tolerance false fuel l' w =
    (outcome_map (@without_history R)
       (fst (while_true func max_iterations tolerance true fuel l w)),
     snd (while_true func max_iterations tolerance true fuel l w)).
Proof.
  induction fuel as [|fuel IH]; intros l l' w Hn Ha Hb; [reflexivity|].
  cbn [while_true]. unfold bind. rewrite !loop_body_eq. cbv zeta.
  rewrite Hn, Ha, Hb.
  repeat match goal with
         | |- context [if ?t then _ else _] => destruct t
         end;
    try reflexivity; apply IH; reflexivity.
Qed.

(** X3: asking for the history changes nothing else.  A call without
    [report_history] has the outcome of the same call with it, history
    dropped: the same estimate or the same exception, after the same
    iterations, evaluations and output. *)
Theorem history_changes_nothing
        (interval : R * R) (max_iterations : Z) (tolerance : R)
        (w : World R) :
  secant func interval max_iterations tolerance false w =
  (outcome_map (@without_history R)
     (fst (secant func interval max_iterations tolerance true w)),
   snd (secant func interval max_iterations tolerance true w)).
Proof.
  destruct interval as [a b]. unfold secant. rewrite !secant_fuel_eq.
  destruct (sign_change func a b); [|reflexivity].
  apply while_true_history; reflexivity.
Qed.

(** X4: [max_iterations <= 0] still computes one step.  A call that
    returns then made exactly one iteration, at the given interval, and
    returns its estimate, as found or as out of iterations. *)
Theorem one_step_without_iterations
        (a b : R) (max_iterations : Z) (tolerance : R) (report_history : bool)
        (r : Result R) (w' : World R) :
  (max_iterations <= 0)%Z ->
  secant func (a, b) max_iterations tolerance report_history (start R)
    = (Ok r, w') ->
  heads w' = [(a, b)] /\
  solution r = secant_c func a b /\
  evals w' = 6%nat /\
  (stdout w' = [found_message 0] \/ stdout w' = [exhausted_message]).
Proof.
  intros Hmax. unfold secant.
  replace (Z.to_nat max_iterations) with 0%nat by lia.
  rewrite secant_fuel_eq.
  destruct (sign_change func a b); [|discriminate].
  cbn [while_true]. unfold bind.
  destruct (loop_body func max_iterations tolerance report_history
              (initial a b) (checked (start R))) as [o1 w1] eqn:Hbody.
  assert (Hres : forall (c : R) (h : History R),
             solution (result report_history c h) = c)
    by (intros c h; unfold result; destruct report_history; reflexivity).
  destruct o1 as [[l'|r1]|e|]; try discriminate;
    pass_cases Hbody; cbn [num_iterations initial] in *; try lia;
    intros E; inversion E; subst; rewrite Hres; cbn; auto.
Qed.

End CallProperties.

(** ** More in exact arithmetic *)

Lemma opposite_signs (x y : Q) :
  (x * y < 0)%Q -> (x < 0 /\ 0 < y)%Q \/ (0 < x /\ y < 0)%Q.
Proof.
  intros Hxy.
  destruct (Q_dec x 0) as [[Hx|Hx]|Hx].
  - left. split; [exact Hx|]. nra.
  - right. split; [exact Hx|]. nra.
  - rewrite Hx in Hxy. lra.
Qed.

Lemma narrower_trans (p q r : Q * Q) :
  narrower p q -> narrower q r -> narrower p r.
Proof. unfold narrower. intros (H1 & H2 & H3) (H4 & H5 & H6). lra. Qed.

Lemma StronglySorted_snoc {A : Type} (rel : A -> A -> Prop)
      (l : list A) (x : A) :
  StronglySorted rel l -> Forall (fun y => rel y x) l ->
  StronglySorted rel (l ++ [x]).
Proof.
  induction 1 as [|y l Hl IH Hy]; intros Hall; cbn.
  - constructor; constructor.
  - inversion Hall; subst. constructor; [apply IH; assumption|].
    apply Forall_app. split; [exact Hy|]. constructor; [assumption|].
    constructor.
Qed.

Lemma solution_result (report_history : bool) (c : Q) (h : History Q) :
  solution (result report_history c h) = c.
Proof. unfold result. destruct report_history; reflexivity. Qed.

Section RationalCalls.

Variable func : Q -> Q.

Lemma sign_change_Q (a b : Q) :
  sign_change func a b = true <-> (func a * func b < 0)%Q.
Proof. unfold sign_change; cbn. apply Qlt_bool_iff. Qed.

(** On a pair with a sign change the secant line crosses zero strictly
    between the two points. *)
Lemma secant_c_inside (a b : Q) :
  sign_change func a b = true -> (a < b)%Q ->
  (a < secant_c func a b /\ secant_c func a b < b)%Q.
Proof.
  intros Hsign Hab. apply sign_change_Q in Hsign.
  unfold secant_c, secant_dx; cbn.
  set (fa := func a) in *. set (fb := func b) in *.
  assert (HD : ~ (fb - fa == 0)%Q)
    by (destruct (opposite_signs Hsign); lra).
  set (d := ((- fa * (b - a)) / (fb - fa))%Q).
  assert (Hd : ((fb - fa) * d == - fa * (b - a))%Q)
    by (apply Qmult_div_r; exact HD).
  assert (Hd' : ((fb - fa) * (b - a - d) == fb * (b - a))%Q) by lra.
  destruct (opposite_signs Hsign) as [[Ha Hb]|[Ha Hb]].
  - assert (0 < - fa * (b - a))%Q by nra.
    assert (0 < fb * (b - a))%Q by nra.
    split; nra.
  - assert (- fa * (b - a) < 0)%Q by nra.
    assert (fb * (b - a) < 0)%Q by nra.
    split; nra.
Qed.

Lemma no_sign_change_Q (a b : Q) :
  sign_change func a b = false <-> (0 <= func a * func b)%Q.
Proof.
  unfold sign_change; cbn. unfold Qlt_bool. rewrite negb_false_iff.
  apply Qle_bool_iff.
Qed.

(** X6: on an interval [a < b] the estimate returned lies strictly
    between [a] and [b]. *)
Theorem estimate_inside
        (a b : Q) (max_iterations : Z) (tolerance : Q) (report_history : bool)
        (r : Result Q) (w' : World Q) :
  (a < b)%Q ->
  secant func (a, b) max_iterations tolerance report_history (start Q)
    = (Ok r, w') ->
  (a < solution r /\ solution r < b)%Q.
Proof.
  intros Hab Hrun. unfold secant in Hrun. rewrite secant_fuel_eq in Hrun.
  destruct (sign_change func a b) eqn:Hs; [|discriminate].
  refine (@while_true_rule Q _ func max_iterations tolerance report_history
            (fun l _ => (a <= a_next l /\ a_next l < b_next l /\
                         b_next l <= b)%Q /\
                        sign_change func (a_next l) (b_next l) = true)
            (fun o _ => forall r, o = Ok r ->
                        (a < solution r /\ solution r < b)%Q)
            _ _ _ _ _ _ _ _ Hrun r eq_refl).
  - discriminate.
  - intros l w o1 w1 [(H1 & H2 & H3) Hsc] Hbody.
    destruct (secant_c_inside Hsc H2) as [Hc1 Hc2].
    rewrite loop_body_eq in Hbody. cbv zeta in Hbody.
    set (c := secant_c func (a_next l) (b_next l)) in *. clearbody c.
    destruct o1 as [[l'|r1]|e|]; split_cases Hbody;
      try (intros r0 E; inversion E; subst; rewrite solution_result;
           split; lra);
      try (intros r0 E; discriminate);
      cbn [a_next b_next]; (split; [split; [|split]; lra|assumption]).
  - cbn [a_next b_next initial]. split; [split; [|split]; lra|exact Hs].
Qed.

(** X7: on an interval [a < b] the pairs of the successive iterations are
    nested and strictly shrinking: each one lies within every earlier one
    and is strictly narrower. *)
Theorem brackets_narrow
        (a b : Q) (max_iterations : Z) (tolerance : Q) (report_history : bool)
        (o : outcome (Result Q)) (w' : World Q) :
  (a < b)%Q ->
  secant func (a, b) max_iterations tolerance report_history (start Q)
    = (o, w') ->
  StronglySorted narrower (heads w').
Proof.
  intros Hab Hrun. unfold secant in Hrun. rewrite secant_fuel_eq in Hrun.
  destruct (sign_change func a b) eqn:Hs;
    [|inversion Hrun; subst; constructor].
  refine (@while_true_rule Q _ func max_iterations tolerance report_history
            (fun l w => (a_next l < b_next l)%Q /\
                        sign_change func (a_next l) (b_next l) = true /\
                        StronglySorted narrower (heads w) /\
                        Forall (fun p => narrower p (a_next l, b_next l))
                               (heads w))
            (fun _ w => StronglySorted narrower (heads w))
            _ _ _ _ _ _ _ _ Hrun).
  - intros l w (_ & _ & Hsorted & _). exact Hsorted.
  - intros l w o1 w1 (Hlt & Hsc & Hsorted & Hall) Hbody.
    destruct (secant_c_inside Hsc Hlt) as [Hc1 Hc2].
    assert (Hheads : heads w1 = heads w ++ [(a_next l, b_next l)]).
    { pose proof (loop_body_heads func max_iterations tolerance report_history
                    l w) as Hh.
      rewrite Hbody in Hh. exact Hh. }
    assert (Hw1 : StronglySorted narrower (heads w1))
      by (rewrite Hheads; apply StronglySorted_snoc; assumption).
    assert (Hnext : forall q, narrower (a_next l, b_next l) q ->
                              Forall (fun p => narrower p q) (heads w1)).
    { intros q Hq. rewrite Hheads. apply Forall_app. split.
      - revert Hall. apply Forall_impl. intros p Hp.
        exact (narrower_trans Hp Hq).
      - constructor; [exact Hq|constructor]. }
    destruct o1 as [[l'|r1]|e|]; try exact Hw1.
    clear Hheads. rewrite loop_body_eq in Hbody. cbv zeta in Hbody.
    set (c := secant_c func (a_next l) (b_next l)) in *. clearbody c.
    split_cases Hbody; cbn [a_next b_next];
      (split; [lra|]); (split; [assumption|]); (split; [exact Hw1|]);
      apply Hnext; unfold narrower; cbn [fst snd];
      (split; [|split]); lra.
  - cbn. split; [exact Hab|]. split; [exact Hs|].
    split; constructor.
Qed.

(** X8: a silent return is an exact root.  A call that returns without
    printing left through the last branch of the sign test; the estimate
    it returns is then a root of [func], and [tolerance] is not positive:
    with a positive tolerance every call that returns prints a line. *)
Theorem silent_return_is_root
        (a b : Q) (max_iterations : Z) (tolerance : Q) (report_history : bool)
        (r : Result Q) (w' : World Q) :
  secant func (a, b) max_iterations tolerance report_history (start Q)
    = (Ok r, w') ->
  stdout w' = [] ->
  (func (solution r) == 0 /\ tolerance <= 0)%Q.
Proof.
  intros Hrun. unfold secant in Hrun. rewrite secant_fuel_eq in Hrun.
  destruct (sign_change func a b) eqn:Hs; [|discriminate].
  refine (@while_true_rule Q _ func max_iterations tolerance report_history
            (fun l w => sign_change func (a_next l) (b_next l) = true /\
                        stdout w = [])
            (fun o w' => forall r, o = Ok r -> stdout w' = [] ->
                         (func (solution r) == 0 /\ tolerance <= 0)%Q)
            _ _ _ _ _ _ _ _ Hrun r eq_refl).
  - discriminate.
  - intros l w o1 w1 [Hsc Hout] Hbody.
    rewrite loop_body_eq in Hbody. cbv zeta in Hbody.
    set (c := secant_c func (a_next l) (b_next l)) in *.
    assert (Hy : secant_y_error func (a_next l) (b_next l) = Qabs (func c))
      by reflexivity.
    clearbody c.
    destruct o1 as [[l'|r1]|e|]; split_cases Hbody;
      try (intros r0 E; discriminate);
      try (split; [assumption|]; unfold after; cbn [stdout];
           rewrite Hout; reflexivity);
      intros r0 E Hsilent; inversion E; subst; clear E;
      unfold after in Hsilent; cbn [stdout] in Hsilent;
      try (apply app_eq_nil in Hsilent; destruct Hsilent; discriminate).
    rewrite solution_result.
    repeat match goal with
           | Hx : sign_change func _ _ = false |- _ =>
               apply no_sign_change_Q in Hx
           end.
    apply sign_change_Q in Hsc.
    assert (Hroot : (func c == 0)%Q).
    { destruct (opposite_signs Hsc) as [[Ha Hb]|[Ha Hb]];
        destruct (Q_dec (func c) 0) as [[Hc|Hc]|Hc];
        try exact Hc; exfalso; nra. }
    split; [exact Hroot|].
    match goal with
    | Hx : stop func tolerance _ _ = false |- _ =>
        unfold stop in Hx; apply orb_false_iff in Hx;
        destruct Hx as [_ Hlt]
    end.
    rewrite Hy in Hlt. cbn in Hlt. unfold Qlt_bool in Hlt.
    apply negb_false_iff in Hlt. apply Qle_bool_iff in Hlt.
    rewrite Hroot in Hlt. exact Hlt.
  - split; [exact Hs|reflexivity].
Qed.

(** X9: on an interval with [f(a) * f(b) < 0] a call always returns an
    estimate: it raises nothing (no assertion error, no division by zero)
    and its loop ends. *)
Theorem bracketing_call_returns
        (a b : Q) (max_iterations : Z) (tolerance : Q)
        (report_history : bool) :
  (func a * func b < 0)%Q ->
  exists r w',
    secant func (a, b) max_iterations tolerance report_history (start Q)
      = (Ok r, w').
Proof.
  intros Hs. apply sign_change_Q in Hs.
  destruct (secant func (a, b) max_iterations tolerance report_history
              (start Q)) as [o w'] eqn:Hrun.
  destruct o as [r|e|].
  - exists r, w'. reflexivity.
  - exfalso. unfold secant in Hrun. rewrite secant_fuel_eq, Hs in Hrun.
    refine (@while_true_rule Q _ func max_iterations tolerance report_history
              (fun l _ => sign_change func (a_next l) (b_next l) = true)
              (fun o _ => forall e, o = Raised e -> False)
              _ _ _ _ _ _ _ _ Hrun e eq_refl).
    + discriminate.
    + intros l w o1 w1 Hinv Hbody.
      rewrite loop_body_eq in Hbody; cbv zeta in Hbody.
      rewrite (sign_change_denominator _ _ _ Hinv) in Hbody.
      repeat match type of Hbody with
             | context [if ?t then _ else _] => destruct t eqn:?
             end;
        inversion Hbody; subst; clear Hbody; cbn; try assumption;
        discriminate.
    + exact Hs.
  - exfalso.
    destruct (secant_fuel_enough func (a, b) max_iterations tolerance
                report_history (start Q) 0) as [Hf _].
    rewrite Hrun in Hf. apply Hf. reflexivity.
Qed.

End RationalCalls.

(** The secant step of a line lands on its root. *)
Lemma line_root (m k a b : Q) :
  ((m * a + k) * (m * b + k) < 0)%Q ->
  (m * secant_c (fun x => m * x + k)%Q a b + k == 0)%Q.
Proof.
  intros Hsign. unfold secant_c, secant_dx; cbn.
  assert (HD : ~ (m * b + k - (m * a + k) == 0)%Q)
    by (destruct (opposite_signs Hsign); lra).
  field. exact HD.
Qed.

(** X10: the method is exact on lines.  For [func(x) = m*x + k] with a
    sign change over the interval and a positive tolerance, the call
    returns the root of the line after a single iteration, as a solution
    found. *)
Theorem exact_on_lines
        (m k a b : Q) (max_iterations : Z) (tolerance : Q)
        (report_history : bool) :
  ((m * a + k) * (m * b + k) < 0)%Q ->
  (0 < tolerance)%Q ->
  exists r w',
    secant (fun x => m * x + k)%Q (a, b) max_iterations tolerance
           report_history (start Q) = (Ok r, w') /\
    (m * solution r + k == 0)%Q /\
    iterations w' = 1%nat /\
    stdout w' = [found_message 0].
Proof.
  intros Hsign Htol.
  set (func := (fun x => m * x + k)%Q).
  assert (Hs : sign_change func a b = true)
    by (apply sign_change_Q; exact Hsign).
  pose proof (line_root Hsign) as Hroot. fold func in Hroot.
  assert (Hstop : stop func tolerance a b = true).
  { unfold stop. apply orb_true_iff. right.
    unfold secant_y_error; cbn. apply Qlt_bool_iff.
    change (Qabs (m * secant_c func a b + k) < tolerance)%Q.
    rewrite Hroot. exact Htol. }
  unfold secant. rewrite secant_fuel_eq, Hs.
  cbn [while_true]. unfold bind. rewrite loop_body_eq. cbv zeta.
  cbn [a_next b_next initial num_iterations history].
  rewrite (sign_change_denominator _ _ _ Hs), Hstop.
  eexists _, _. split; [reflexivity|]. rewrite solution_result.
  split; [exact Hroot|]. split; reflexivity.
Qed.

(** *** At concrete inputs *)

Lemma printed_line_witness :
  let run := secant f_Q (1, 2)%Q 1 (1 # 100)%Q true (start Q) in
  match fst run with
  | Ok _ =>
      stdout (snd run) = [] \/
      stdout (snd run) = [found_message (Z.of_nat (iterations (snd run)) - 1)]
      \/ (stdout (snd run) = [exhausted_message] /\
          iterations (snd run) = S (Z.to_nat 1))
  | _ => stdout (snd run) = []
  end.
Proof.
  intros run.
  apply (@printed_line Q _ f_Q 1%Q 2%Q 1 (1 # 100)%Q true
           (fst run) (snd run)).
  vm_compute. reflexivity.
Defined.

Lemma one_step_without_iterations_witness :
  exists r w',
    secant f_Q (1, 2)%Q 0 (1 # 100)%Q false (start Q) = (Ok r, w') /\
    heads w' = [(1, 2)%Q] /\
    solution r = secant_c f_Q 1%Q 2%Q /\
    evals w' = 6%nat /\
    (stdout w' = [found_message 0] \/ stdout w' = [exhausted_message]).
Proof.
  eexists _, _. split; [vm_compute; reflexivity|].
  refine (@one_step_without_iterations Q _ f_Q 1%Q 2%Q 0 (1 # 100)%Q false
            _ _ _ _).
  - lia.
  - vm_compute. reflexivity.
Defined.

Lemma estimate_inside_witness :
  exists r w',
    secant f_Q (1, 2)%Q 3 (1 # 100)%Q false (start Q) = (Ok r, w') /\
    (1 < solution r /\ solution r < 2)%Q.
Proof.
  eexists _, _. split; [vm_compute; reflexivity|].
  refine (@estimate_inside f_Q 1%Q 2%Q 3 (1 # 100)%Q false _ _ _ _).
  - reflexivity.
  - vm_compute. reflexivity.
Defined.

Lemma brackets_narrow_witness :
  exists o w',
    secant f_Q (1, 2)%Q 3 (1 # 100)%Q false (start Q) = (o, w') /\
    StronglySorted narrower (heads w').
Proof.
  eexists _, _. split; [vm_compute; reflexivity|].
  refine (@brackets_narrow f_Q 1%Q 2%Q 3 (1 # 100)%Q false _ _ _ _).
  - reflexivity.
  - vm_compute. reflexivity.
Defined.

Lemma silent_return_is_root_witness :
  exists r w',
    secant line_Q (-1, 1)%Q 5 0%Q true (start Q) = (Ok r, w') /\
    stdout w' = [] /\
    (line_Q (solution r) == 0 /\ 0 <= 0)%Q.
Proof.
  eexists _, _. split; [vm_compute; reflexivity|].
  split; [reflexivity|].
  refine (@silent_return_is_root line_Q (-1)%Q 1%Q 5 0%Q true _ _ _ _).
  - vm_compute. reflexivity.
  - reflexivity.
Defined.

Lemma bracketing_call_returns_witness :
  exists r w',
    secant f_Q (1, 2)%Q 5 (1 # 100)%Q true (start Q) = (Ok r, w').
Proof.
  apply (@bracketing_call_returns f_Q 1%Q 2%Q 5 (1 # 100)%Q true).
  reflexivity.
Defined.

Lemma exact_on_lines_witness :
  exists r w',
    secant (fun x => 2 * x + -1)%Q (0, 1)%Q 5 (1 # 100)%Q true (start Q)
      = (Ok r, w') /\
    (2 * solution r + -1 == 0)%Q /\
    iterations w' = 1%nat /\
    stdout w' = [found_message 0].
Proof.
  apply (@exact_on_lines 2%Q (-1)%Q 0%Q 1%Q 5 (1 # 100)%Q true);
    reflexivity.
Defined.

(** ** The secant denominator *)

Section Denominator.

Context {R : Type} `{Number R}.

(** For a handle that is a function of its argument, the solver for
    handles with memory is [secant]. *)
Lemma while_true_st_pure
      (func : R -> R) (max_iterations : Z) (tolerance : R)
      (report_history : bool) (fuel : nat) :
  forall (l : Locals R) (w : World R),
    while_true_st (fun _ => func) max_iterations tolerance report_history
                  fuel l w
    = while_true func max_iterations tolerance report_history fuel l w.
Proof.
  induction fuel as [|fuel IH]; intros l w; [reflexivity|].
  cbn [while_true_st while_true]. unfold bind.
  change (loop_body_st (fun _ => func) max_iterations tolerance
                       report_history l w)
    with (loop_body func max_iterations tolerance report_history l w).
  destruct (loop_body func max_iterations tolerance report_history l w)
    as [[[l'|r]|e|] w1]; first [apply IH | reflexivity].
Qed.

Lemma secant_st_pure
      (func : R -> R) (interval : R * R) (max_iterations : Z) (tolerance : R)
      (report_history : bool) (w : World R) :
  secant_st (fun _ => func) interval max_iterations tolerance report_history w
  = secant func interval max_iterations tolerance report_history w.
Proof.
  destruct interval as [a b].
  unfold secant_st, secant, secant_st_fuel, secant_fuel, bind, call_st, call.
  destruct (py_assert (lt (mul (func a) (func b)) zero) assert_message _)
    as [[[]|e|] w1]; first [apply while_true_st_pure | reflexivity].
Qed.


End Denominator.



(** The same call on Python [float] values: here the division itself
    raises. *)
Example zero_denominator_python_float :
  @secant_st float Number_float first_call_negative (1, 2)%float 5
    0x1.ad7f29abcaf48p-24%float false (start float)
  = (Raised ZeroDivisionError,
     {| evals := 5; heads := [(1, 2)%float]; stdout := [] |}).
Proof. vm_compute. reflexivity. Qed.

